(** * Real-time notification core of the Verline front end

    Shallow embedding of
    - [src/src/contexts/NotificationsContext.tsx]: the notification store
      (React state [notifications], [unreadCount], [isConnected]) and the
      handlers and user operations that update it;
    - [src/src/services/websocket.ts]: the [WebSocketService] singleton
      (connection lifecycle, reconnect timer, outbound messages) and its
      event dispatcher ([on], [off], [emit]). *)

From Stdlib Require Import ZArith Bool List String Lia.
From stdpp Require Import base list gmap strings.
Import ListNotations.
Open Scope Z_scope.

(* ================================================================== *)
(** ** Notification data (websocket.ts, [NotificationData]) *)

Module Notif.

Record Sender := mkSender {
  sender_id : Z;
  username : string;
  full_name : string;
  profile_picture : option string
}.

Record NotificationData := mkNotification {
  id : Z;
  type_ : string;
  message : string;
  sender : Sender;
  painting_id : option Z;
  comment_id : option Z;
  rating_id : option Z;
  is_read : bool;
  created_at : string
}.

(** [{ ...notif, is_read: true }] *)
Definition with_read (n : NotificationData) : NotificationData :=
  {| id := id n; type_ := type_ n; message := message n; sender := sender n;
     painting_id := painting_id n; comment_id := comment_id n;
     rating_id := rating_id n; is_read := true; created_at := created_at n |}.

End Notif.

(* ================================================================== *)
(** ** The notification store (NotificationsContext.tsx)

    The provider's three pieces of React state.  Every [setX(prev => ...)]
    is a function applied to the current state when React processes it, so
    each handler is a function [Store -> Store]. *)

Module Store.
Import Notif.

Record Store := mkStore {
  notifications : list NotificationData;
  unreadCount : Z;
  isConnected : bool
}.

Definition set_notifications (l : list NotificationData) (s : Store) : Store :=
  {| notifications := l; unreadCount := unreadCount s; isConnected := isConnected s |}.
Definition set_unreadCount (c : Z) (s : Store) : Store :=
  {| notifications := notifications s; unreadCount := c; isConnected := isConnected s |}.
Definition set_isConnected (b : bool) (s : Store) : Store :=
  {| notifications := notifications s; unreadCount := unreadCount s; isConnected := b |}.

(** [useState([])], [useState(0)], [useState(false)] *)
Definition initial : Store := mkStore [] 0 false.

(** Listeners registered in the [useEffect] for an authenticated user. *)
Definition handleConnect (s : Store) : Store := set_isConnected true s.
Definition handleDisconnect (s : Store) : Store := set_isConnected false s.
Definition handleError (s : Store) : Store := set_isConnected false s.

(** [setNotifications(prev => [data, ...prev]); setUnreadCount(prev => prev + 1)]
    (the browser [Notification] alert touches no store state). *)
Definition handleNotification (data : NotificationData) (s : Store) : Store :=
  set_unreadCount (unreadCount s + 1) (set_notifications (data :: notifications s) s).

(** [setUnreadCount(data.count)] *)
Definition handleUnreadCount (count : Z) (s : Store) : Store :=
  set_unreadCount count s.

(** [setNotifications(data)] *)
Definition handleNotificationsList (data : list NotificationData) (s : Store) : Store :=
  set_notifications data s.

(** [notif.id === notificationId ? { ...notif, is_read: true } : notif] *)
Definition mark_if (notificationId : Z) (n : NotificationData) : NotificationData :=
  if Z.eqb (id n) notificationId then with_read n else n.

(** [markAsRead]: the synchronous part only sends [mark_read] on the
    socket ([webSocketService.markNotificationAsRead]) and starts the REST
    call; the store is untouched until the awaited call settles. *)
Definition markAsRead_call (notificationId : Z) (s : Store) : Store := s.

(** Continuation of [markAsRead] once [api.notifications.markAsRead]
    settles: [ok = false] is a rejected promise, which lands in the [catch]
    (logged) and skips both state updates. *)
Definition markAsRead_settle (notificationId : Z) (ok : bool) (s : Store) : Store :=
  if ok then
    let s1 := set_notifications (map (mark_if notificationId) (notifications s)) s in
    set_unreadCount (Z.max 0 (unreadCount s1 - 1)) s1
  else s.

(** [markAllAsRead]: synchronous part, then continuation. *)
Definition markAllAsRead_call (s : Store) : Store := s.

Definition markAllAsRead_settle (ok : bool) (s : Store) : Store :=
  if ok then
    let s1 := set_notifications (map with_read (notifications s)) s in
    set_unreadCount 0 s1
  else s.

(** [refreshNotifications]: the socket request, then the awaited
    [getAll] (result [None] when it rejects) and [getUnreadCount]. *)
Definition refresh_call (s : Store) : Store := s.

Definition refresh_list_settle (r : option (list NotificationData)) (s : Store) : Store :=
  match r with Some l => set_notifications l s | None => s end.

Definition refresh_count_settle (r : option Z) (s : Store) : Store :=
  match r with Some c => set_unreadCount c s | None => s end.

(** Effect cleanup / logged-out branch:
    [setIsConnected(false); setNotifications([]); setUnreadCount(0)]. *)
Definition reset (s : Store) : Store := mkStore [] 0 false.

(** Everything that can reach the store, in the order the event loop
    delivers it. *)
Inductive StoreEv :=
| EvConnect
| EvDisconnect
| EvError
| EvNotification (data : NotificationData)
| EvUnreadCount (count : Z)
| EvNotificationsList (data : list NotificationData)
| MarkAsReadCall (notificationId : Z)
| MarkAsReadSettle (notificationId : Z) (ok : bool)
| MarkAllAsReadCall
| MarkAllAsReadSettle (ok : bool)
| RefreshCall
| RefreshListSettle (r : option (list NotificationData))
| RefreshCountSettle (r : option Z)
| Reset.

Definition step (e : StoreEv) (s : Store) : Store :=
  match e with
  | EvConnect => handleConnect s
  | EvDisconnect => handleDisconnect s
  | EvError => handleError s
  | EvNotification d => handleNotification d s
  | EvUnreadCount c => handleUnreadCount c s
  | EvNotificationsList l => handleNotificationsList l s
  | MarkAsReadCall i => markAsRead_call i s
  | MarkAsReadSettle i ok => markAsRead_settle i ok s
  | MarkAllAsReadCall => markAllAsRead_call s
  | MarkAllAsReadSettle ok => markAllAsRead_settle ok s
  | RefreshCall => refresh_call s
  | RefreshListSettle r => refresh_list_settle r s
  | RefreshCountSettle r => refresh_count_settle r s
  | Reset => reset s
  end.

Fixpoint run (es : list StoreEv) (s : Store) : Store :=
  match es with
  | [] => s
  | e :: es' => run es' (step e s)
  end.

(** Number of entries of the list with [is_read = false]. *)
Definition count_unread (l : list NotificationData) : nat :=
  length (List.filter (fun n => negb (is_read n)) l).

(** Events that keep every entry already read as it is: all but those
    storing a notification or a list coming from the server. *)
Definition keeps_read (e : StoreEv) : bool :=
  match e with
  | EvNotification _ | EvNotificationsList _ | RefreshListSettle (Some _) => false
  | _ => true
  end.

(** Every entry carrying id [i] is read. *)
Definition all_read_with_id (i : Z) (l : list NotificationData) : Prop :=
  forall n, In n l -> id n = i -> is_read n = true.

(** Events whose count payload is not negative. *)
Definition count_nonneg (e : StoreEv) : Prop :=
  match e with
  | EvUnreadCount c => 0 <= c
  | RefreshCountSettle (Some c) => 0 <= c
  | _ => True
  end.

(** The counter agrees with the list: it is the number of unread entries. *)
Definition consistent (s : Store) : Prop :=
  unreadCount s = Z.of_nat (count_unread (notifications s)).

(** Sample data for concrete runs. *)
Definition sample_sender : Sender := mkSender 2 "ann" "Ann Lee" None.
Definition notif_ex (i : Z) (r : bool) : NotificationData :=
  mkNotification i "rating" "Ann rated your painting" sample_sender
    (Some 5) None (Some 8) r "2024-01-01T00:00:00".

End Store.

(* ================================================================== *)
(** ** The transport channel ([WebSocketService], websocket.ts)

    The service's private fields form [Service].  The JS runtime around it
    is the [World]: the sockets created so far with their [readyState], the
    pending [setTimeout] timers with their due time, the clock, the next
    fresh handle, and a trace of what the service does to the outside
    (events emitted to listeners, frames sent, sockets constructed).

    Socket callbacks are closures over [this]: whichever socket fires
    [onopen]/[onclose]/[onerror], the handler reads and writes the
    service's fields, not that socket's.  [emit] is recorded in the trace;
    the listeners this repository registers (NotificationsContext) only set
    React state and never call back into the service. *)

Module Transport.

Inductive ReadyState := CONNECTING | OPEN | CLOSING | CLOSED.

#[global] Instance ReadyState_eq_dec : EqDecision ReadyState.
Proof. solve_decision. Defined.

(** Outbound [{ type: ... }] messages. *)
Inductive OutMsg :=
| GetNotifications
| MarkRead (notification_id : Z)
| MarkAllRead.

(** Events passed to [emit]. *)
Inductive Emitted :=
| EConnect
| EDisconnect (code : Z) (reason : string)
| EError
| EMessage (type_ : string).

Inductive Obs :=
| OEmit (e : Emitted)
| OSend (sock : nat) (m : OutMsg)
| OCreate (sock : nat) (userId : Z) (token : string).

Record Service := mkService {
  ws : option nat;
  reconnectTimer : option nat;
  userId : option Z;
  token : option string;
  isConnecting : bool
}.

Record World := mkWorld {
  svc : Service;
  sockets : gmap nat ReadyState;
  timers : list (nat * Z);
  now : Z;
  fresh : nat;
  trace : list Obs
}.

Definition set_ws (o : option nat) (v : Service) : Service :=
  mkService o (reconnectTimer v) (userId v) (token v) (isConnecting v).
Definition set_reconnectTimer (o : option nat) (v : Service) : Service :=
  mkService (ws v) o (userId v) (token v) (isConnecting v).
Definition set_ids (u : option Z) (t : option string) (v : Service) : Service :=
  mkService (ws v) (reconnectTimer v) u t (isConnecting v).
Definition set_isConnecting (b : bool) (v : Service) : Service :=
  mkService (ws v) (reconnectTimer v) (userId v) (token v) b.

(** The constructor: every field [null]/[false]. *)
Definition init_service : Service := mkService None None None None false.
Definition init_world : World := mkWorld init_service ∅ [] 0 1 [].

(** JS truthiness of [this.userId] ([number | null]) and [this.token]
    ([string | null]). *)
Definition truthy_num (o : option Z) : bool :=
  match o with Some z => negb (Z.eqb z 0) | None => false end.
Definition truthy_str (o : option string) : bool :=
  match o with Some s => negb (String.eqb s "") | None => false end.

(** *** A state monad over the world *)

Definition M (A : Type) : Type := World -> A * World.

Definition ret {A} (a : A) : M A := fun w => (a, w).
Definition bind {A B} (m : M A) (k : A -> M B) : M B :=
  fun w => let (a, w') := m w in k a w'.

Notation "'let*' x ':=' m 'in' k" := (bind m (fun x => k))
  (at level 200, x name, m at level 100, k at level 200).
Notation "m ;; k" := (bind m (fun _ => k)) (at level 100, right associativity).

Definition get : M World := fun w => (w, w).
Definition modify_svc (f : Service -> Service) : M unit :=
  fun w => (tt, mkWorld (f (svc w)) (sockets w) (timers w) (now w) (fresh w) (trace w)).
Definition observe (o : Obs) : M unit :=
  fun w => (tt, mkWorld (svc w) (sockets w) (timers w) (now w) (fresh w) (trace w ++ [o])).
Definition set_socket (s : nat) (r : ReadyState) : M unit :=
  fun w => (tt, mkWorld (svc w) (<[s := r]> (sockets w)) (timers w) (now w) (fresh w) (trace w)).
Definition set_timers (l : list (nat * Z)) : M unit :=
  fun w => (tt, mkWorld (svc w) (sockets w) l (now w) (fresh w) (trace w)).
Definition gen_fresh : M nat :=
  fun w => (fresh w, mkWorld (svc w) (sockets w) (timers w) (now w) (S (fresh w)) (trace w)).

(** *** Runtime primitives *)

(** [setTimeout(cb, delay)]: a fresh (truthy) handle, due at [now + delay]. *)
Definition setTimeout (delay : Z) : M nat :=
  let* h := gen_fresh in
  let* w := get in
  set_timers (timers w ++ [(h, now w + delay)]) ;;
  ret h.

(** [clearTimeout(h)] *)
Definition clearTimeout (h : nat) : M unit :=
  let* w := get in
  set_timers (List.filter (fun p => negb (Nat.eqb (fst p) h)) (timers w)).

(** [new WebSocket(url)]: a fresh socket in state CONNECTING. *)
Definition new_socket (u : Z) (t : string) : M nat :=
  let* s := gen_fresh in
  set_socket s CONNECTING ;;
  observe (OCreate s u t) ;;
  ret s.

(** [ws.close(1000, ...)]: CONNECTING and OPEN sockets start closing. *)
Definition close_socket (s : nat) : M unit :=
  let* w := get in
  match sockets w !! s with
  | Some CONNECTING | Some OPEN => set_socket s CLOSING
  | _ => ret tt
  end.

(** [this.ws && this.ws.readyState === WebSocket.OPEN] *)
Definition ws_is_open (w : World) : bool :=
  match ws (svc w) with
  | Some s => bool_decide (sockets w !! s = Some OPEN)
  | None => false
  end.

(** *** The service's methods *)

Definition emit (e : Emitted) : M unit := observe (OEmit e).

Definition send (m : OutMsg) : M unit :=
  let* w := get in
  match ws (svc w) with
  | Some s => if ws_is_open w then observe (OSend s m) else ret tt
  | None => ret tt
  end.

Definition clearReconnectTimer : M unit :=
  let* w := get in
  match reconnectTimer (svc w) with
  | Some h => clearTimeout h ;; modify_svc (set_reconnectTimer None)
  | None => ret tt
  end.

Definition scheduleReconnect : M unit :=
  clearReconnectTimer ;;
  let* h := setTimeout 3000 in
  modify_svc (set_reconnectTimer (Some h)).

Definition onopen : M unit :=
  modify_svc (set_isConnecting false) ;;
  clearReconnectTimer ;;
  emit EConnect ;;
  send GetNotifications.

Definition onclose (code : Z) (reason : string) : M unit :=
  modify_svc (set_isConnecting false) ;;
  modify_svc (set_ws None) ;;
  emit (EDisconnect code reason) ;;
  let* w := get in
  if negb (Z.eqb code 1000) && truthy_num (userId (svc w)) && truthy_str (token (svc w))
  then scheduleReconnect else ret tt.

Definition onerror : M unit :=
  modify_svc (set_isConnecting false) ;;
  emit EError.

(** [onmessage]: [None] is a frame whose [JSON.parse] throws (logged). *)
Definition onmessage (msg : option string) : M unit :=
  match msg with Some ty => emit (EMessage ty) | None => ret tt end.

Definition disconnect : M unit :=
  clearReconnectTimer ;;
  modify_svc (set_ids None None) ;;
  let* w := get in
  match ws (svc w) with
  | Some s => close_socket s ;; modify_svc (set_ws None)
  | None => ret tt
  end.

Section WithCtor.

(** Whether [new WebSocket(url)] throws for the URL built from
    [userId] and [token] (e.g. a [SyntaxError]); left to the browser. *)
Variable ctor_throws : Z -> string -> bool.

Definition connect (u : Z) (t : string) : M unit :=
  let* w := get in
  if isConnecting (svc w) || ws_is_open w then ret tt
  else
    modify_svc (set_ids (Some u) (Some t)) ;;
    modify_svc (set_isConnecting true) ;;
    if ctor_throws u t then
      modify_svc (set_isConnecting false) ;;
      emit EError
    else
      let* s := new_socket u t in
      modify_svc (set_ws (Some s)).

(** The callback of the reconnect timer. *)
Definition reconnect_cb : M unit :=
  let* w := get in
  match userId (svc w), token (svc w) with
  | Some u, Some t =>
      if truthy_num (Some u) && truthy_str (Some t) then connect u t else ret tt
  | _, _ => ret tt
  end.

(** What the environment can do next: calls into the public methods,
    socket events (only those the socket's state allows), time passing
    (never beyond a pending timer) and a due timer firing. *)
Inductive Ev :=
| CallConnect (u : Z) (t : string)
| CallDisconnect
| CallSend (m : OutMsg)
| SockOpen (s : nat)
| SockClose (s : nat) (code : Z) (reason : string)
| SockError (s : nat)
| SockMessage (s : nat) (msg : option string)
| Elapse (dt : Z)
| FireTimer (h : nat).

Definition exec (m : M unit) (w : World) : option World := Some (snd (m w)).

Definition step (e : Ev) (w : World) : option World :=
  match e with
  | CallConnect u t => exec (connect u t) w
  | CallDisconnect => exec disconnect w
  | CallSend m => exec (send m) w
  | SockOpen s =>
      match sockets w !! s with
      | Some CONNECTING => exec (set_socket s OPEN ;; onopen) w
      | _ => None
      end
  | SockClose s code reason =>
      match sockets w !! s with
      | Some CLOSED | None => None
      | Some _ => exec (set_socket s CLOSED ;; onclose code reason) w
      end
  | SockError s =>
      match sockets w !! s with
      | Some CLOSED | None => None
      | Some _ => exec onerror w
      end
  | SockMessage s msg =>
      match sockets w !! s with
      | Some OPEN => exec (onmessage msg) w
      | _ => None
      end
  | Elapse dt =>
      if bool_decide (0 <= dt) && forallb (fun p => Z.leb (now w + dt) (snd p)) (timers w)
      then Some (mkWorld (svc w) (sockets w) (timers w) (now w + dt) (fresh w) (trace w))
      else None
  | FireTimer h =>
      (* the runtime drops a timer once it fires; [reconnectTimer] keeps
         the stale handle, as in the source *)
      match List.find (fun p => Nat.eqb (fst p) h) (timers w) with
      | Some (_, due) =>
          if Z.leb due (now w)
          then exec (clearTimeout h ;; reconnect_cb) w
          else None
      | None => None
      end
  end.

Fixpoint run (es : list Ev) (w : World) : option World :=
  match es with
  | [] => Some w
  | e :: es' => match step e w with Some w' => run es' w' | None => None end
  end.

Definition reachable (w : World) : Prop := exists es, run es init_world = Some w.

End WithCtor.

(** At most one timer is pending, and a pending timer is the one stored
    in [reconnectTimer]. *)
Definition timers_inv (w : World) : Prop :=
  timers w = [] \/ exists h d, timers w = [(h, d)] /\ reconnectTimer (svc w) = Some h.

(** [disconnect()] as a step of its own. *)
Definition after_disconnect (w : World) : World := snd (disconnect w).

Definition is_call_connect (e : Ev) : bool :=
  match e with CallConnect _ _ => true | _ => false end.

Definition no_create (o : Obs) : bool :=
  match o with OCreate _ _ _ => false | _ => true end.

(** Browsers for concrete runs: one where [new WebSocket] never throws,
    one where it always does. *)
Definition never_throws : Z -> string -> bool := fun _ _ => false.
Definition always_throws : Z -> string -> bool := fun _ _ => true.

(** User 1 is connected; the provider's effect cleanup calls
    [disconnect()] and the effect for user 2 calls [connect] at once; the
    close event of the first socket arrives afterwards. *)
Definition switch_user_prefix : list Ev :=
  [CallConnect 1 "a"; SockOpen 1; CallDisconnect; CallConnect 2 "b";
   SockClose 1 1000 "Manual disconnect"].

(** A history with a reconnect attempt in flight: the first socket closed
    abnormally, the timer fired and a second socket is connecting. *)
Definition reconnect_history : list Ev :=
  [CallConnect 5 "a"; SockOpen 1; SockClose 1 1006 ""; Elapse 3000; FireTimer 2].

(** An abnormal close after the socket opened: a reconnect is pending. *)
(** Every frame sent on a socket went out while that socket was OPEN. *)
Definition sent_on_open (w : World) (o : Obs) : Prop :=
  match o with OSend s _ => sockets w !! s = Some OPEN | _ => True end.

Definition pending_reconnect : list Ev :=
  [CallConnect 5 "a"; SockOpen 1; SockClose 1 1006 ""].

Definition world_after (es : list Ev) : World :=
  default init_world (run never_throws es init_world).



End Transport.

(* ================================================================== *)
(** ** The event dispatcher ([on], [off], [emit] of websocket.ts)

    [listeners : Map<string, Function[]>].  A callback is named by a
    number, so that [indexOf] can compare callbacks by identity; what a
    callback does when invoked is [body]: it may call [on]/[off] (any
    change of the registry) and it may throw.  [calls] records each
    [callback(data)] invocation, [errors] each [console.error] of the
    [catch]. *)

Module Dispatcher.

Section WithPayload.

Variable Payload : Type.

Record Disp := mkDisp {
  listeners : gmap string (list nat);
  calls : list (nat * Payload);
  errors : nat
}.

(** The constructor's six keys, each with an empty array. *)
Definition init_listeners : gmap string (list nat) :=
  list_to_map [("notification", []); ("unread_count", []);
               ("notifications_list", []); ("connect", []);
               ("disconnect", []); ("error", [])].

(** [on(event, callback)] *)
Definition on (event : string) (cb : nat) (r : gmap string (list nat)) : gmap string (list nat) :=
  <[event := default [] (r !! event) ++ [cb]]> r.

Fixpoint indexOf (cb : nat) (arr : list nat) : option nat :=
  match arr with
  | [] => None
  | x :: xs => if Nat.eqb x cb then Some 0%nat else option_map S (indexOf cb xs)
  end.

(** [off(event, callback)]: [splice(index, 1)] on the first match. *)
Definition off (event : string) (cb : nat) (r : gmap string (list nat)) : gmap string (list nat) :=
  match r !! event with
  | Some arr =>
      match indexOf cb arr with
      | Some i => <[event := take i arr ++ drop (S i) arr]> r
      | None => r
      end
  | None => r
  end.

(** What invoking callback [cb] with [data] does: the registry after the
    call, and whether the call threw. *)
Variable body : nat -> Payload -> gmap string (list nat) -> gmap string (list nat) * bool.

(** [Array.prototype.forEach] on the array stored under [event]: the
    length is read once; index [k] is visited only if it is still present
    when the loop reaches it, reading the element found there then. *)
Fixpoint forEach_from (event : string) (data : Payload) (k : nat) (n : nat) (d : Disp) : Disp :=
  match n with
  | O => d
  | S n' =>
      match listeners d !! event ≫= (fun arr => arr !! k) with
      | Some cb =>
          let (r', threw) := body cb data (listeners d) in
          let d' := mkDisp r' (calls d ++ [(cb, data)]) (if threw then S (errors d) else errors d) in
          forEach_from event data (S k) n' d'
      | None => forEach_from event data (S k) n' d
      end
  end.

(** [emit(event, data)] *)
Definition emit (event : string) (data : Payload) (d : Disp) : Disp :=
  match listeners d !! event with
  | Some arr => forEach_from event data 0 (length arr) d
  | None => d
  end.

End WithPayload.

Arguments mkDisp {Payload}.
Arguments listeners {Payload}.
Arguments calls {Payload}.
Arguments errors {Payload}.
Arguments forEach_from {Payload}.
Arguments emit {Payload}.

(** Three callbacks on [notification], registered in the order 1, 2, 3;
    callback 1 unsubscribes itself ([off('notification', cb1)]) when
    invoked, as a "once" listener does. *)
Definition once_body : nat -> unit -> gmap string (list nat) -> gmap string (list nat) * bool :=
  fun cb _ r => if Nat.eqb cb 1 then (off "notification" 1 r, false) else (r, false).

Definition three_listeners : Disp unit :=
  mkDisp (on "notification" 3 (on "notification" 2 (on "notification" 1 init_listeners))) [] 0.

(** A callback that throws, followed by two that return. *)
Definition throwing_first : nat -> unit -> gmap string (list nat) -> gmap string (list nat) * bool :=
  fun cb _ r => (r, Nat.eqb cb 1).

(** Several [on] calls, resp. [off] calls, in sequence. *)
Definition on_all (ps : list (string * nat)) (r : gmap string (list nat)) : gmap string (list nat) :=
  fold_left (fun r p => on p.1 p.2 r) ps r.
Definition off_all (ps : list (string * nat)) (r : gmap string (list nat)) : gmap string (list nat) :=
  fold_left (fun r p => off p.1 p.2 r) ps r.

(** The six listeners the [NotificationsProvider] effect registers
    (NotificationsContext.tsx, lines 74-79) and its cleanup unregisters
    in the same order (lines 83-88); each effect run makes fresh closures
    [handleConnect], ..., [handleError], named here by six numbers. *)
Definition provider_pairs (hc hd hn hu hl he : nat) : list (string * nat) :=
  [("connect", hc); ("disconnect", hd); ("notification", hn);
   ("unread_count", hu); ("notifications_list", hl); ("error", he)].

End Dispatcher.

(* ================================================================== *)
(** * Properties of the notification store *)

Module StoreProofs.
Import Notif Store.

Lemma id_with_read (n : NotificationData) : id (with_read n) = id n.
Proof. reflexivity. Qed.

Lemma id_mark_if (i : Z) (n : NotificationData) : id (mark_if i n) = id n.
Proof. unfold mark_if. destruct (Z.eqb (id n) i); reflexivity. Qed.

Lemma is_read_mark_if (i : Z) (n : NotificationData) :
  is_read n = true -> is_read (mark_if i n) = true.
Proof. unfold mark_if. destruct (Z.eqb (id n) i); simpl; auto. Qed.

Lemma map_mark_if_no_match (i : Z) (l : list NotificationData) :
  Forall (fun n => id n <> i) l -> map (mark_if i) l = l.
Proof.
  induction 1 as [|n l Hn _ IH]; simpl; [reflexivity|].
  rewrite IH. unfold mark_if.
  destruct (Z.eqb_spec (id n) i); [contradiction | reflexivity].
Qed.

Lemma step_keeps_read (e : StoreEv) (s : Store) (i : Z) :
  keeps_read e = true ->
  all_read_with_id i (notifications s) ->
  all_read_with_id i (notifications (step e s)).
Proof.
  intros Hk Hs n Hin Hid.
  destruct e as [| | |d|c|l|j|j ok| |ok| |[l|]|r|]; simpl in *;
    try discriminate; try (now apply Hs).
  - (* markAsRead settles *)
    unfold markAsRead_settle in Hin. destruct ok; simpl in Hin; [|now apply Hs].
    apply in_map_iff in Hin as (m & <- & Hm).
    rewrite id_mark_if in Hid. apply is_read_mark_if. now apply Hs.
  - (* markAllAsRead settles *)
    unfold markAllAsRead_settle in Hin. destruct ok; simpl in Hin; [|now apply Hs].
    apply in_map_iff in Hin as (m & <- & Hm). reflexivity.
  - (* refresh count settles: list untouched *)
    destruct r; simpl in Hin; now apply Hs.
Qed.

Lemma step_count_nonneg (e : StoreEv) (s : Store) :
  count_nonneg e -> 0 <= unreadCount s -> 0 <= unreadCount (step e s).
Proof.
  intros He Hs.
  destruct e as [| | |d|c|l|j|j ok| |ok| |[l|]|[c|]|]; simpl in *;
    unfold handleNotification, handleUnreadCount, markAsRead_settle, markAllAsRead_settle, refresh_count_settle, reset, markAsRead_call, markAllAsRead_call, refresh_call in *;
    repeat match goal with b : bool |- _ => destruct b end; simpl in *; lia.
Qed.

End StoreProofs.

(* ------------------------------------------------------------------ *)
(** ** Claims about the store *)

Module StoreClaims.
Import Notif Store StoreProofs.

(** C1 (counterexample): with a notification 1 unread and count 1,
    [markAsRead(1)] whose REST call rejects leaves the entry unread and
    the count at 1: nothing was applied on initiation. *)
Lemma markAsRead_rest_failure_applies_nothing :
  let s0 := mkStore [notif_ex 1 false] 1 true in
  let s1 := run [MarkAsReadCall 1; MarkAsReadSettle 1 false] s0 in
  notifications s1 = [notif_ex 1 false] /\ unreadCount s1 = 1.
Proof. split; reflexivity. Qed.

(** C1 (amended): [markAsRead(id)] and [markAllAsRead()] change no store
    state when called; the local update (entries with that id, resp. all
    entries, get [is_read = true]; the count becomes [max 0 (count - 1)],
    resp. 0) is applied only when the REST call succeeds, and a failed
    REST call leaves the store exactly as it was. *)
Theorem mark_updates_only_after_rest_success (s : Store) (i : Z) :
  markAsRead_call i s = s /\
  markAsRead_settle i false s = s /\
  markAsRead_settle i true s =
    mkStore (map (mark_if i) (notifications s)) (Z.max 0 (unreadCount s - 1)) (isConnected s) /\
  markAllAsRead_call s = s /\
  markAllAsRead_settle false s = s /\
  markAllAsRead_settle true s =
    mkStore (map with_read (notifications s)) 0 (isConnected s).
Proof. repeat split. Qed.

(** C2 (counterexample): an entry with id 1 that is read is replaced by
    a [notifications_list] snapshot carrying id 1 with [is_read = false]. *)
Lemma snapshot_brings_back_unread :
  let s0 := mkStore [notif_ex 1 true] 0 true in
  let s1 := step (EvNotificationsList [notif_ex 1 false]) s0 in
  all_read_with_id 1 (notifications s0) /\
  In (notif_ex 1 false) (notifications s1) /\ is_read (notif_ex 1 false) = false.
Proof.
  repeat split.
  - intros n [<-|[]] _. reflexivity.
  - left. reflexivity.
Qed.

(** C2 (amended): when every entry with id [i] is read, any sequence of
    events other than a pushed notification, a [notifications_list]
    snapshot or a refresh list result (that is: markAsRead and
    markAllAsRead whatever the REST outcome, unread_count, connect,
    disconnect, error, refresh count, reset) keeps every entry with id [i]
    read. *)
Theorem read_entries_kept_by_local_events (es : list StoreEv) (s : Store) (i : Z) :
  forallb keeps_read es = true ->
  all_read_with_id i (notifications s) ->
  all_read_with_id i (notifications (run es s)).
Proof.
  revert s. induction es as [|e es IH]; intros s Hk Hs; simpl in *; [exact Hs|].
  apply andb_prop in Hk as [He Hes].
  apply IH; [exact Hes|]. now apply step_keeps_read.
Qed.

Lemma read_entries_kept_by_local_events_witness :
  forallb keeps_read [EvUnreadCount 4; MarkAsReadSettle 1 false; EvConnect] = true /\
  all_read_with_id 1 (notifications (mkStore [notif_ex 1 true; notif_ex 2 false] 1 true)) /\
  all_read_with_id 1 (notifications
    (run [EvUnreadCount 4; MarkAsReadSettle 1 false; EvConnect]
         (mkStore [notif_ex 1 true; notif_ex 2 false] 1 true))).
Proof.
  assert (H0 : all_read_with_id 1 (notifications (mkStore [notif_ex 1 true; notif_ex 2 false] 1 true))).
  { intros n [<-|[<-|[]]] Hid; [reflexivity|discriminate]. }
  split; [reflexivity|]. split; [exact H0|].
  apply (read_entries_kept_by_local_events _ _ 1); [reflexivity|exact H0].
Defined.

(** C5 (counterexample): an [unread_count] event with a negative count
    is stored as it is. *)
Lemma negative_unread_count_stored :
  unreadCount (run [EvUnreadCount (-1)] initial) = -1.
Proof. reflexivity. Qed.

(** C5 (amended): starting from a count >= 0, the count stays >= 0
    across any sequence of store events whose [unread_count] payloads and
    REST count results are >= 0 (markAsRead decrements are clamped at 0,
    pushed notifications add 1, markAllAsRead and reset set 0). *)
Theorem unread_count_nonneg (es : list StoreEv) (s : Store) :
  Forall count_nonneg es -> 0 <= unreadCount s -> 0 <= unreadCount (run es s).
Proof.
  intros Hes. revert s.
  induction Hes as [|e es He _ IH]; intros s Hs; simpl; [exact Hs|].
  apply IH. now apply step_count_nonneg.
Qed.

Lemma unread_count_nonneg_witness :
  Forall count_nonneg [MarkAsReadSettle 3 true; MarkAsReadSettle 3 true; EvUnreadCount 2] /\
  0 <= unreadCount initial /\
  0 <= unreadCount (run [MarkAsReadSettle 3 true; MarkAsReadSettle 3 true; EvUnreadCount 2] initial).
Proof.
  assert (H : Forall count_nonneg [MarkAsReadSettle 3 true; MarkAsReadSettle 3 true; EvUnreadCount 2]).
  { repeat constructor; simpl; lia. }
  split; [exact H|]. split; [simpl; lia|].
  apply unread_count_nonneg; [exact H | simpl; lia].
Defined.

(** C6: a [notifications_list] event replaces the list by the payload
    and leaves the unread count as it was. *)
Theorem notifications_list_replaces_list_only (s : Store) (data : list NotificationData) :
  notifications (step (EvNotificationsList data) s) = data /\
  unreadCount (step (EvNotificationsList data) s) = unreadCount s.
Proof. split; reflexivity. Qed.

(** The spec's P6 scenario: 5 entries, 3 of them unread, count 3; a
    2-item snapshot arrives. *)
Example notifications_list_p6 :
  let s0 := mkStore [notif_ex 1 false; notif_ex 2 true; notif_ex 3 false;
                     notif_ex 4 true; notif_ex 5 false] 3 true in
  let s1 := step (EvNotificationsList [notif_ex 6 false; notif_ex 7 true]) s0 in
  notifications s1 = [notif_ex 6 false; notif_ex 7 true] /\ unreadCount s1 = 3.
Proof. split; reflexivity. Qed.

(** C9: once the REST call of [markAsRead(i)] succeeds the count becomes
    [max 0 (count - 1)], whether or not an entry with id [i] exists or is
    already read; with no entry with id [i] the list is unchanged; so the
    count can end up different from the number of unread entries. *)
Theorem markAsRead_success_decrements_unconditionally (s : Store) (i : Z) :
  unreadCount (markAsRead_settle i true s) = Z.max 0 (unreadCount s - 1) /\
  (Forall (fun n => id n <> i) (notifications s) ->
   notifications (markAsRead_settle i true s) = notifications s) /\
  (exists (s0 : Store) (i0 : Z),
     Z.of_nat (count_unread (notifications s0)) = unreadCount s0 /\
     Z.of_nat (count_unread (notifications (markAsRead_settle i0 true s0)))
       <> unreadCount (markAsRead_settle i0 true s0)).
Proof.
  split; [reflexivity|]. split.
  - intros Hno. simpl. now apply map_mark_if_no_match.
  - exists (mkStore [notif_ex 1 false] 1 true), 9. split; simpl; [reflexivity|].
    unfold count_unread, mark_if. simpl. lia.
Qed.

Lemma markAsRead_success_decrements_unconditionally_witness :
  Forall (fun n => id n <> 9) [notif_ex 1 false] /\
  notifications (markAsRead_settle 9 true (mkStore [notif_ex 1 false] 1 true)) = [notif_ex 1 false] /\
  unreadCount (markAsRead_settle 9 true (mkStore [notif_ex 1 false] 1 true)) = 0.
Proof.
  assert (H : Forall (fun n => id n <> 9) [notif_ex 1 false]).
  { repeat constructor. simpl. lia. }
  split; [exact H|].
  destruct (markAsRead_success_decrements_unconditionally (mkStore [notif_ex 1 false] 1 true) 9)
    as [Hc [Hl _]].
  split; [exact (Hl H) | rewrite Hc; reflexivity].
Defined.

End StoreClaims.

(* ================================================================== *)
(** * Properties of the transport channel *)

Module TransportProofs.
Import Transport.

Ltac unfold_world :=
  unfold exec, reconnect_cb, connect, disconnect, onopen, onclose, onerror,
    onmessage, scheduleReconnect, clearReconnectTimer, send, emit, close_socket,
    new_socket, clearTimeout, setTimeout, gen_fresh, set_timers, set_socket,
    observe, modify_svc, get, ret, bind, set_ws, set_reconnectTimer, set_ids,
    set_isConnecting in *; simpl in *.

Lemma step_timers_inv (ctor : Z -> string -> bool) (e : Ev) (w w' : World) :
  timers_inv w -> step ctor e w = Some w' -> timers_inv w'.
Proof.
  unfold timers_inv. destruct w as [[ws0 rt uid tok ic] socks tms nw fr tr]; simpl.
  intros [-> | (h & d & -> & ->)] Hstep; destruct e; unfold step in Hstep; unfold_world;
    repeat (case_match; simplify_eq/=; rewrite ?Nat.eqb_refl in *; simplify_eq/=).
  all: try discriminate.
  all: first [left; reflexivity | right; do 2 eexists; split; [reflexivity|]; eauto].
Qed.

Lemma run_timers_inv (ctor : Z -> string -> bool) (es : list Ev) (w w' : World) :
  timers_inv w -> run ctor es w = Some w' -> timers_inv w'.
Proof.
  revert w. induction es as [|e es IH]; intros w Hw Hrun; simpl in Hrun.
  - now simplify_eq.
  - destruct (step ctor e w) as [w1|] eqn:Hs; [|discriminate].
    apply (IH w1); [eapply step_timers_inv; eauto | exact Hrun].
Qed.

Lemma reachable_timers_inv (ctor : Z -> string -> bool) (w : World) :
  reachable ctor w -> timers_inv w.
Proof.
  intros [es Hrun]. eapply run_timers_inv; [|exact Hrun]. left. reflexivity.
Qed.

(** Never more than one pending timer. *)
Lemma reachable_at_most_one_timer (ctor : Z -> string -> bool) (w : World) :
  reachable ctor w -> (length (timers w) <= 1)%nat.
Proof.
  intros Hr. destruct (reachable_timers_inv ctor w Hr) as [-> | (h & d & -> & _)];
    simpl; lia.
Qed.

(** No identity and no pending timer. *)
Definition quiet (w : World) : Prop :=
  userId (svc w) = None /\ token (svc w) = None /\ timers w = [].

Lemma step_quiet (ctor : Z -> string -> bool) (e : Ev) (w w' : World) :
  is_call_connect e = false -> quiet w -> step ctor e w = Some w' ->
  quiet w' /\ exists tr, trace w' = trace w ++ tr /\ forallb no_create tr = true.
Proof.
  unfold quiet. destruct w as [[ws0 rt uid tok ic] socks tms nw fr tr]; simpl.
  intros Hc (-> & -> & ->) Hstep; destruct e; simpl in Hc; try discriminate;
    unfold step in Hstep; unfold_world;
    repeat (case_match; simplify_eq/=; rewrite ?andb_false_r in *; simplify_eq/=).
  all: try discriminate.
  all: split; [repeat split|].
  all: first [exists []; rewrite app_nil_r; split; reflexivity
             | eexists; split; [rewrite <- ?app_assoc; reflexivity | reflexivity]].
Qed.


Lemma run_quiet (ctor : Z -> string -> bool) (es : list Ev) (w w' : World) :
  forallb (fun e => negb (is_call_connect e)) es = true -> quiet w ->
  run ctor es w = Some w' ->
  quiet w' /\ exists tr, trace w' = trace w ++ tr /\ forallb no_create tr = true.
Proof.
  revert w. induction es as [|e es IH]; intros w Hes Hq Hrun; simpl in *.
  - simplify_eq. split; [exact Hq|]. exists []. rewrite app_nil_r. split; reflexivity.
  - apply andb_prop in Hes as [He Hes]. apply negb_true_iff in He.
    destruct (step ctor e w) as [w1|] eqn:Hs; [|discriminate].
    destruct (step_quiet ctor e w w1 He Hq Hs) as [Hq1 (tr1 & Ht1 & Hn1)].
    destruct (IH w1 Hes Hq1 Hrun) as [Hq' (tr2 & Ht2 & Hn2)].
    split; [exact Hq'|]. exists (tr1 ++ tr2).
    rewrite Ht2, Ht1, app_assoc. split; [reflexivity|].
    rewrite forallb_app, Hn1, Hn2. reflexivity.
Qed.

Lemma disconnect_quiet (w : World) : timers_inv w -> quiet (after_disconnect w).
Proof.
  unfold quiet, timers_inv, after_disconnect.
  destruct w as [[ws0 rt uid tok ic] socks tms nw fr tr]; simpl.
  intros [-> | (h & d & -> & ->)]; unfold_world;
    repeat (case_match; simplify_eq/=; rewrite ?Nat.eqb_refl in *; simplify_eq/=);
    repeat split.
Qed.

(** An abnormal close of any live socket, with an identity whose id and
    token are truthy, leaves exactly one pending timer, due 3000 ms
    later, held in [reconnectTimer]. *)
Lemma abnormal_close_schedules_one (ctor : Z -> string -> bool) (w : World)
    (s : nat) (r : ReadyState) (code : Z) (reason : string) :
  timers_inv w -> sockets w !! s = Some r -> r <> CLOSED -> code <> 1000 ->
  truthy_num (userId (svc w)) = true -> truthy_str (token (svc w)) = true ->
  exists w', step ctor (SockClose s code reason) w = Some w' /\
    exists h, timers w' = [(h, now w + 3000)] /\ reconnectTimer (svc w') = Some h.
Proof.
  unfold timers_inv.
  destruct w as [[ws0 rt uid tok ic] socks tms nw fr tr]; simpl.
  intros Hinv Hs Hr Hc Hu Ht. unfold step; simpl. rewrite Hs.
  apply Z.eqb_neq in Hc.
  destruct Hinv as [-> | (h & d & -> & ->)];
    destruct r; try contradiction;
    eexists; (split; [reflexivity|]); unfold_world; rewrite Hc, Hu, Ht; simpl; try destruct rt; simpl;
    rewrite ?Nat.eqb_refl; simpl; eexists; split; reflexivity.
Qed.

End TransportProofs.

(* ------------------------------------------------------------------ *)
(** ** Claims about the transport channel *)

Module TransportClaims.
Import Transport TransportProofs.

(** C3 (failing input): a user whose id is [0] has a stored id and
    token, yet the abnormal close (1006) schedules nothing, because
    [this.userId && this.token] is false for [0]; with id [42] the same
    history leaves one timer due at 3000 ms. *)
Theorem abnormal_close_user_id_zero_no_reconnect :
  (match run never_throws [CallConnect 0 "tok"; SockOpen 1; SockClose 1 1006 ""] init_world with
   | Some w => userId (svc w) = Some 0 /\ token (svc w) = Some "tok" /\
               timers w = [] /\ reconnectTimer (svc w) = None
   | None => False
   end) /\
  (match run never_throws [CallConnect 42 "tok"; SockOpen 1; SockClose 1 1006 ""] init_world with
   | Some w => timers w = [(2%nat, 3000)] /\ reconnectTimer (svc w) = Some 2%nat
   | None => False
   end).
Proof. vm_compute. repeat split. Qed.

(** C4: in any reachable state, after [disconnect()] no timer is
    pending and no identity is stored, and any sequence of events without
    a new [connect] call (socket closes of any code, errors, messages,
    time passing) keeps it so and constructs no socket. *)
Theorem disconnect_suppresses_reconnect (ctor : Z -> string -> bool)
    (w : World) (es : list Ev) (w' : World) :
  reachable ctor w ->
  forallb (fun e => negb (is_call_connect e)) es = true ->
  run ctor es (after_disconnect w) = Some w' ->
  timers w' = [] /\ userId (svc w') = None /\ token (svc w') = None /\
  exists tr, trace w' = trace (after_disconnect w) ++ tr /\ forallb no_create tr = true.
Proof.
  intros Hr Hes Hrun.
  pose proof (disconnect_quiet w (reachable_timers_inv ctor w Hr)) as Hq.
  destruct (run_quiet ctor es _ w' Hes Hq Hrun) as [(Hu & Ht & Htm) Htr].
  repeat split; assumption.
Qed.

Lemma disconnect_suppresses_reconnect_witness :
  reachable never_throws (world_after reconnect_history) /\
  forallb (fun e => negb (is_call_connect e)) [SockClose 3 1006 ""; Elapse 10000] = true /\
  exists w', run never_throws [SockClose 3 1006 ""; Elapse 10000]
               (after_disconnect (world_after reconnect_history)) = Some w' /\
             timers w' = [].
Proof.
  assert (Hr : reachable never_throws (world_after reconnect_history)).
  { exists reconnect_history. vm_compute. reflexivity. }
  split; [exact Hr|]. split; [reflexivity|].
  eexists. split; [vm_compute; reflexivity|].
  refine (proj1 (disconnect_suppresses_reconnect never_throws _
                   [SockClose 3 1006 ""; Elapse 10000] _ Hr eq_refl _)).
  vm_compute. reflexivity.
Defined.

(** The spec's scenario A: connect, open, connect again: one socket,
    one [connect] event and exactly one [get_notifications]. *)
Example scenario_a :
  option_map trace (run never_throws [CallConnect 42 "tok"; SockOpen 1; CallConnect 42 "tok"] init_world)
  = Some [OCreate 1 42 "tok"; OEmit EConnect; OSend 1 GetNotifications].
Proof. vm_compute. reflexivity. Qed.

(** C7 (failing input): after the user switch of [switch_user_prefix],
    the stale close handler of socket 1 has cleared [ws] and
    [isConnecting] while socket 2 is still connecting.  When socket 2
    opens, no [get_notifications] goes out (the trace ends with the
    [connect] event); and a [connect] call before it opens is not a
    no-op: it constructs socket 3. *)
Theorem stale_close_breaks_connect_guard :
  (match run never_throws (switch_user_prefix ++ [SockOpen 2]) init_world with
   | Some w =>
       sockets w !! 2%nat = Some OPEN /\ ws (svc w) = None /\
       trace w = [OCreate 1 1 "a"; OEmit EConnect; OSend 1 GetNotifications;
                  OCreate 2 2 "b"; OEmit (EDisconnect 1000 "Manual disconnect");
                  OEmit EConnect]
   | None => False
   end) /\
  (match run never_throws (switch_user_prefix ++ [CallConnect 2 "b"]) init_world with
   | Some w =>
       sockets w !! 2%nat = Some CONNECTING /\ sockets w !! 3%nat = Some CONNECTING /\
       last (trace w) = Some (OCreate 3 2 "b")
   | None => False
   end).
Proof. vm_compute. repeat split. Qed.

(** C10: when [new WebSocket] throws, [connect(u, t)] emits [error],
    clears [isConnecting] and leaves [ws] as it was, but keeps [u] and
    [t] stored; so a later abnormal close (any socket's [onclose]) of a
    truthy identity schedules a reconnect timer due 3000 ms later. *)
Theorem connect_ctor_throw_keeps_identity (ctor : Z -> string -> bool)
    (w : World) (u : Z) (t : string) :
  ctor u t = true -> isConnecting (svc w) = false -> ws_is_open w = false ->
  let w' := snd (connect ctor u t w) in
  trace w' = trace w ++ [OEmit EError] /\ isConnecting (svc w') = false /\
  userId (svc w') = Some u /\ token (svc w') = Some t /\ ws (svc w') = ws (svc w) /\
  (u <> 0 -> t <> "" -> forall code reason, code <> 1000 ->
     exists h, reconnectTimer (svc (snd (onclose code reason w'))) = Some h /\
               In (h, now w + 3000) (timers (snd (onclose code reason w')))).
Proof.
  intros Hc Hic Hopen.
  destruct w as [[ws0 rt uid tok ic] socks tms nw fr tr]; simpl in *; subst ic.
  unfold connect, bind, get, ret, modify_svc, emit, observe; simpl.
  rewrite Hopen, Hc. simpl.
  repeat split.
  intros Hu Ht code reason Hcode.
  apply Z.eqb_neq in Hu. apply String.eqb_neq in Ht. apply Z.eqb_neq in Hcode.
  unfold_world. rewrite Hu, Ht, Hcode. simpl.
  destruct rt; simpl; eexists; (split; [reflexivity|]); apply in_or_app; right; left; reflexivity.
Qed.

Lemma connect_ctor_throw_keeps_identity_witness :
  always_throws 7 "tok" = true /\ isConnecting (svc init_world) = false /\
  ws_is_open init_world = false /\
  userId (svc (snd (connect always_throws 7 "tok" init_world))) = Some 7.
Proof.
  split; [reflexivity|]. split; [reflexivity|]. split; [reflexivity|].
  exact (proj1 (proj2 (proj2 (connect_ctor_throw_keeps_identity always_throws init_world 7 "tok"
                                eq_refl eq_refl eq_refl)))).
Defined.

End TransportClaims.

(* ================================================================== *)
(** * Properties of the dispatcher *)

Module DispatcherProofs.
Import Dispatcher.

Section Isolation.

Context {Payload : Type}.
Variable body : nat -> Payload -> gmap string (list nat) -> gmap string (list nat) * bool.

(** Callbacks that leave the registry as they found it (they may throw). *)
Hypothesis body_keeps_registry : forall cb p r, fst (body cb p r) = r.

Lemma forEach_from_isolated (event : string) (data : Payload) (arr : list nat) :
  forall (n k : nat) (d : Disp Payload),
  listeners d !! event = Some arr -> (k + n)%nat = length arr ->
  forEach_from body event data k n d =
    mkDisp (listeners d) (calls d ++ map (fun cb => (cb, data)) (drop k arr))
           (errors d + length (List.filter (fun cb => snd (body cb data (listeners d))) (drop k arr)))%nat.
Proof.
  induction n as [|n IH]; intros k d Hl Hlen; simpl.
  - rewrite drop_ge by lia. simpl. rewrite app_nil_r, Nat.add_0_r.
    destruct d; reflexivity.
  - rewrite Hl. simpl.
    destruct (arr !! k) as [cb|] eqn:Hk.
    2:{ apply lookup_ge_None in Hk. lia. }
    pose proof (body_keeps_registry cb data (listeners d)) as Hb.
    destruct (body cb data (listeners d)) as [r' threw] eqn:Hbody. simpl in Hb. subst r'.
    rewrite IH by (simpl; auto; lia). simpl.
    rewrite (drop_S arr cb k Hk). simpl. rewrite Hbody. simpl.
    rewrite <- app_assoc. simpl.
    destruct threw; simpl; f_equal; lia.
Qed.

(** With callbacks that do not touch the registry, [emit] invokes every
    registered callback in registration order, a throwing callback does
    not stop the following ones, and the registry is unchanged; an event
    with no array (or an empty one) invokes nothing. *)
Lemma emit_isolated (event : string) (data : Payload) (d : Disp Payload) :
  emit body event data d =
    mkDisp (listeners d)
           (calls d ++ map (fun cb => (cb, data)) (default [] (listeners d !! event)))
           (errors d + length (List.filter (fun cb => snd (body cb data (listeners d)))
                                 (default [] (listeners d !! event))))%nat.
Proof.
  unfold emit. destruct (listeners d !! event) as [arr|] eqn:Hl; simpl.
  - rewrite (forEach_from_isolated event data arr (length arr) 0 d Hl) by lia.
    reflexivity.
  - rewrite app_nil_r, Nat.add_0_r. destruct d; reflexivity.
Qed.

End Isolation.

End DispatcherProofs.

Module DispatcherClaims.
Import Dispatcher.

(** C8 (failing input): callbacks 1, 2, 3 on [notification], callback 1
    calling [off] on itself.  [forEach] walks the live array, which the
    [splice] has shifted: callback 2, registered before the emit and
    still registered after it, is never invoked. *)
Theorem emit_skips_after_self_removal :
  calls (emit once_body "notification" tt three_listeners) = [(1%nat, tt); (3%nat, tt)] /\
  listeners (emit once_body "notification" tt three_listeners) !! "notification" = Some [2%nat; 3%nat].
Proof. vm_compute. split; reflexivity. Qed.

End DispatcherClaims.

(* ------------------------------------------------------------------ *)
(** ** Registry operations *)

Module RegistryProofs.
Import Dispatcher.

Lemma indexOf_first (cb : nat) (a1 a2 : list nat) :
  ~ In cb a1 -> indexOf cb (a1 ++ cb :: a2) = Some (length a1).
Proof.
  induction a1 as [|x a1 IH]; intros Hn; simpl.
  - rewrite Nat.eqb_refl. reflexivity.
  - destruct (Nat.eqb_spec x cb) as [->|_]; [exfalso; apply Hn; left; reflexivity|].
    rewrite IH; [reflexivity|]. intros H. apply Hn. right. exact H.
Qed.

Lemma indexOf_none (cb : nat) (arr : list nat) : ~ In cb arr -> indexOf cb arr = None.
Proof.
  induction arr as [|x arr IH]; intros Hn; simpl; [reflexivity|].
  destruct (Nat.eqb_spec x cb) as [->|_]; [exfalso; apply Hn; left; reflexivity|].
  rewrite IH; [reflexivity|]. intros H. apply Hn. right. exact H.
Qed.

Lemma take_drop_around {A} (a1 a2 : list A) (x : A) :
  take (length a1) (a1 ++ x :: a2) ++ drop (S (length a1)) (a1 ++ x :: a2) = a1 ++ a2.
Proof. induction a1 as [|y a1 IH]; simpl; [reflexivity|]. rewrite IH. reflexivity. Qed.

(** [off] removes the first registration of the callback and nothing
    else; with no registration, or no array for the event, it changes
    nothing. *)
Theorem off_removes_first_registration (event : string) (cb : nat)
    (r : gmap string (list nat)) :
  (forall a1 a2, r !! event = Some (a1 ++ cb :: a2) -> ~ In cb a1 ->
     off event cb r = <[event := a1 ++ a2]> r) /\
  (forall arr, r !! event = Some arr -> ~ In cb arr -> off event cb r = r) /\
  (r !! event = None -> off event cb r = r).
Proof.
  unfold off. split; [|split].
  - intros a1 a2 Hl Hn. rewrite Hl, indexOf_first by exact Hn.
    rewrite take_drop_around. reflexivity.
  - intros arr Hl Hn. rewrite Hl, indexOf_none by exact Hn. reflexivity.
  - intros Hl. rewrite Hl. reflexivity.
Qed.

(** [off] undoes [on] when the callback was not registered for the event
    before. *)
Theorem off_on_roundtrip (event : string) (cb : nat) (arr : list nat)
    (r : gmap string (list nat)) :
  r !! event = Some arr -> ~ In cb arr -> off event cb (on event cb r) = r.
Proof.
  intros Hl Hn. unfold on, off. rewrite Hl. simpl.
  rewrite lookup_insert_eq.
  rewrite (indexOf_first cb arr []) by exact Hn.
  rewrite (take_drop_around arr [] cb), app_nil_r.
  rewrite insert_insert_eq. apply insert_id. exact Hl.
Qed.

Lemma off_on_commute (ev ev' : string) (cb cb' : nat) (x : gmap string (list nat)) :
  ev <> ev' -> off ev cb (on ev' cb' x) = on ev' cb' (off ev cb x).
Proof.
  intros Hne. unfold on, off.
  rewrite lookup_insert_ne by congruence.
  destruct (x !! ev) as [arr|] eqn:Hx; [|reflexivity].
  destruct (indexOf cb arr) as [i|]; [|reflexivity].
  rewrite lookup_insert_ne by congruence.
  apply insert_insert_ne. exact Hne.
Qed.

Lemma off_on_all_commute (ev : string) (cb : nat) (ps : list (string * nat))
    (x : gmap string (list nat)) :
  ~ In ev (map fst ps) -> off ev cb (on_all ps x) = on_all ps (off ev cb x).
Proof.
  revert x. induction ps as [|[e c] ps IH]; intros x Hn; simpl; [reflexivity|].
  unfold on_all in *. simpl. rewrite IH by (intros H; apply Hn; right; exact H).
  f_equal. apply off_on_commute. intros ->. apply Hn. left. reflexivity.
Qed.

Lemma off_all_on_all (ps : list (string * nat)) (r : gmap string (list nat)) :
  NoDup (map fst ps) ->
  Forall (fun p => exists arr, r !! p.1 = Some arr /\ ~ In p.2 arr) ps ->
  off_all ps (on_all ps r) = r.
Proof.
  revert r. induction ps as [|[e c] ps IH]; intros r Hnd Hall; [reflexivity|].
  simpl in Hnd. apply NoDup_cons in Hnd as [Hnin Hnd].
  apply Forall_cons in Hall as [(arr & Hl & Hn) Hall].
  unfold off_all, on_all. simpl. fold (on_all ps (on e c r)). fold (off_all ps (off e c (on_all ps (on e c r)))).
  rewrite off_on_all_commute by (rewrite <- list_elem_of_In in *; exact Hnin).
  rewrite (off_on_roundtrip e c arr r Hl Hn).
  apply IH; [exact Hnd | exact Hall].
Qed.

(** Mounting the provider's effect and running its cleanup leaves the
    listener registry exactly as it was (no listener is left behind),
    provided the effect's fresh closures were not registered already. *)
Theorem provider_cleanup_restores_registry (hc hd hn hu hl he : nat)
    (r : gmap string (list nat)) :
  Forall (fun p => exists arr, r !! p.1 = Some arr /\ ~ In p.2 arr)
         (provider_pairs hc hd hn hu hl he) ->
  off_all (provider_pairs hc hd hn hu hl he) (on_all (provider_pairs hc hd hn hu hl he) r) = r.
Proof.
  intros Hall. apply off_all_on_all; [|exact Hall].
  unfold provider_pairs. simpl. repeat constructor; set_solver.
Qed.

Lemma provider_cleanup_restores_registry_witness :
  Forall (fun p => exists arr, init_listeners !! p.1 = Some arr /\ ~ In p.2 arr)
         (provider_pairs 1 2 3 4 5 6) /\
  off_all (provider_pairs 1 2 3 4 5 6) (on_all (provider_pairs 1 2 3 4 5 6) init_listeners)
    = init_listeners.
Proof.
  assert (H : Forall (fun p => exists arr, init_listeners !! p.1 = Some arr /\ ~ In p.2 arr)
                     (provider_pairs 1 2 3 4 5 6)).
  { unfold provider_pairs.
    repeat (apply Forall_cons_2; [exists []; split; [reflexivity | intros []]|]).
    apply Forall_nil_2. }
  split; [exact H|]. exact (provider_cleanup_restores_registry 1 2 3 4 5 6 init_listeners H).
Defined.

Lemma off_removes_first_registration_witness :
  off "notification" 7 (<["notification" := [2%nat; 7%nat; 3%nat; 7%nat]]> init_listeners)
    = <["notification" := [2%nat; 3%nat; 7%nat]]> (<["notification" := [2%nat; 7%nat; 3%nat; 7%nat]]> init_listeners).
Proof.
  apply (proj1 (off_removes_first_registration "notification" 7 _) [2%nat] [3%nat; 7%nat]).
  - reflexivity.
  - intros [H|[]]. discriminate.
Defined.

Lemma off_on_roundtrip_witness :
  off "error" 9 (on "error" 9 init_listeners) = init_listeners.
Proof. apply (off_on_roundtrip "error" 9 []); [reflexivity | intros []]. Defined.

End RegistryProofs.

Module EmitProofs.
Import Dispatcher DispatcherProofs.

Lemma forEach_from_calls_bound {Payload : Type}
    (body : nat -> Payload -> gmap string (list nat) -> gmap string (list nat) * bool)
    (event : string) (data : Payload) :
  forall (n k : nat) (d : Disp Payload),
  (length (calls (forEach_from body event data k n d)) <= length (calls d) + n)%nat.
Proof.
  induction n as [|n IH]; intros k d; simpl; [lia|].
  destruct (listeners d !! event ≫= (fun arr => arr !! k)) as [cb|].
  - destruct (body cb data (listeners d)) as [r' threw].
    specialize (IH (S k) (mkDisp r' (calls d ++ [(cb, data)])
                               (if threw then S (errors d) else errors d))).
    simpl in IH. rewrite length_app in IH. simpl in IH. lia.
  - specialize (IH (S k) d). lia.
Qed.

(** Whatever the callbacks do (throw, register or unregister listeners),
    one [emit] invokes at most as many callbacks as the event's array held
    when it started: callbacks added during the emit are not run by it. *)
Theorem emit_calls_bounded {Payload : Type}
    (body : nat -> Payload -> gmap string (list nat) -> gmap string (list nat) * bool)
    (event : string) (data : Payload) (d : Disp Payload) :
  (length (calls (emit body event data d))
     <= length (calls d) + length (default [] (listeners d !! event)))%nat.
Proof.
  unfold emit. destruct (listeners d !! event) as [arr|]; simpl.
  - apply forEach_from_calls_bound.
  - lia.
Qed.

Lemma emit_isolated_witness :
  (forall cb p r, fst (throwing_first cb p r) = r) /\
  emit throwing_first "notification" tt three_listeners =
    mkDisp (listeners three_listeners) [(1%nat, tt); (2%nat, tt); (3%nat, tt)] 1.
Proof.
  assert (Hk : forall cb p r, fst (throwing_first cb p r) = r) by reflexivity.
  split; [exact Hk|].
  rewrite (emit_isolated throwing_first Hk "notification" tt three_listeners).
  vm_compute. reflexivity.
Defined.

End EmitProofs.

(* ------------------------------------------------------------------ *)
(** ** Further properties of the transport channel *)

Module TransportMore.
Import Transport TransportProofs.

(** Calling [disconnect()] a second time does nothing more: the world
    after two calls is the world after one.  After it, [isConnected()]
    is false and no identity is stored. *)
Theorem disconnect_idempotent (w : World) :
  after_disconnect (after_disconnect w) = after_disconnect w /\
  ws_is_open (after_disconnect w) = false /\
  ws (svc (after_disconnect w)) = None /\
  userId (svc (after_disconnect w)) = None /\ token (svc (after_disconnect w)) = None.
Proof.
  unfold after_disconnect.
  destruct w as [[ws0 rt uid tok ic] socks tms nw fr tr].
  unfold_world.
  repeat (case_match; simplify_eq/=); repeat split.
Qed.



Lemma reachable_at_most_one_timer_witness :
  reachable never_throws (world_after reconnect_history) /\
  (length (timers (world_after reconnect_history)) <= 1)%nat.
Proof.
  assert (Hr : reachable never_throws (world_after reconnect_history)).
  { exists reconnect_history. vm_compute. reflexivity. }
  split; [exact Hr|]. exact (reachable_at_most_one_timer never_throws _ Hr).
Defined.

Lemma abnormal_close_schedules_one_witness :
  exists w', step never_throws (SockClose 1 1006 "")
               (world_after [CallConnect 5 "a"; SockOpen 1]) = Some w' /\
    exists h, timers w' = [(h, now (world_after [CallConnect 5 "a"; SockOpen 1]) + 3000)] /\
      reconnectTimer (svc w') = Some h.
Proof.
  apply (abnormal_close_schedules_one never_throws _ 1 OPEN 1006 "").
  - left. vm_compute. reflexivity.
  - vm_compute. reflexivity.
  - discriminate.
  - discriminate.
  - vm_compute. reflexivity.
  - vm_compute. reflexivity.
Defined.









(** When the socket opens, any pending reconnect is cancelled: no timer
    is left and [reconnectTimer] is [null]. *)
Theorem open_cancels_reconnect (ctor : Z -> string -> bool) (w w' : World) (s : nat) :
  timers_inv w -> step ctor (SockOpen s) w = Some w' ->
  timers w' = [] /\ reconnectTimer (svc w') = None.
Proof.
  unfold timers_inv. destruct w as [[ws0 rt uid tok ic] socks tms nw fr tr]; simpl.
  intros [-> | (h & d & -> & ->)] Hstep; unfold step in Hstep; unfold_world;
    repeat (case_match; simplify_eq/=; rewrite ?Nat.eqb_refl in *; simplify_eq/=).
  all: try discriminate.
  all: split; reflexivity.
Qed.

Lemma open_cancels_reconnect_witness :
  exists w', timers_inv (world_after (pending_reconnect ++ [CallConnect 5 "a"])) /\
    step never_throws (SockOpen 3) (world_after (pending_reconnect ++ [CallConnect 5 "a"])) = Some w' /\
    timers w' = [] /\ reconnectTimer (svc w') = None.
Proof.
  assert (Hi : timers_inv (world_after (pending_reconnect ++ [CallConnect 5 "a"]))).
  { right. vm_compute. do 2 eexists. split; reflexivity. }
  eexists. split; [exact Hi|].
  assert (Hs : step never_throws (SockOpen 3) (world_after (pending_reconnect ++ [CallConnect 5 "a"])) =
               Some (snd ((set_socket 3 OPEN ;; onopen)
                            (world_after (pending_reconnect ++ [CallConnect 5 "a"]))))).
  { vm_compute. reflexivity. }
  split; [exact Hs|].
  exact (open_cancels_reconnect never_throws _ _ 3 Hi Hs).
Defined.



(** [send] and every path that reaches it write a frame only on a socket
    that is OPEN: a step adds to the trace only frames whose socket is
    OPEN in the resulting world. *)
Theorem step_sends_only_on_open (ctor : Z -> string -> bool) (e : Ev) (w w' : World) :
  step ctor e w = Some w' ->
  exists tr, trace w' = trace w ++ tr /\ Forall (sent_on_open w') tr.
Proof.
  destruct w as [[ws0 rt uid tok ic] socks tms nw fr tr]; simpl.
  intros Hstep; destruct e; unfold step in Hstep; unfold ws_is_open in *; unfold_world;
    repeat (case_match; simplify_eq/=; rewrite ?Nat.eqb_refl in *; simplify_eq/=).
  all: try discriminate.
  all: unfold ws_is_open in *; simpl in *.
  all: repeat match goal with H : bool_decide _ = true |- _ => apply bool_decide_eq_true in H end.
  all: try (exists []; rewrite app_nil_r; split; [reflexivity | apply Forall_nil_2]).
  all: eexists; split; [rewrite <- ?app_assoc; reflexivity|].
  all: repeat (apply Forall_cons_2; [simpl; first [exact I | assumption] |]); apply Forall_nil_2.
Qed.

Lemma step_sends_only_on_open_witness :
  exists tr, trace (world_after [CallConnect 5 "a"; SockOpen 1; CallSend MarkAllRead]) =
             trace (world_after [CallConnect 5 "a"; SockOpen 1]) ++ tr /\
    Forall (sent_on_open (world_after [CallConnect 5 "a"; SockOpen 1; CallSend MarkAllRead])) tr.
Proof.
  apply step_sends_only_on_open with (ctor := never_throws) (e := CallSend MarkAllRead).
  vm_compute. reflexivity.
Defined.

End TransportMore.

(* ------------------------------------------------------------------ *)
(** ** The counter and the list together *)

Module StoreMore.
Import Notif Store StoreProofs.

Lemma count_unread_cons (n : NotificationData) (l : list NotificationData) :
  count_unread (n :: l) = ((if is_read n then 0 else 1) + count_unread l)%nat.
Proof. unfold count_unread. simpl. destruct (is_read n); reflexivity. Qed.

Lemma count_unread_map_with_read (l : list NotificationData) :
  count_unread (map with_read l) = 0%nat.
Proof. induction l as [|n l IH]; [reflexivity|]. rewrite map_cons, count_unread_cons. exact IH. Qed.

(** Marking the id of an entry, in a list whose ids are distinct,
    lowers the count by one when that entry was unread. *)
Lemma count_unread_mark_one (i : Z) (n : NotificationData) (l : list NotificationData) :
  NoDup (map id l) -> In n l -> id n = i -> is_read n = false ->
  S (count_unread (map (mark_if i) l)) = count_unread l.
Proof.
  intros Hnd Hin Hid Hr. induction l as [|m l IH]; [destruct Hin|].
  simpl in Hnd. apply NoDup_cons in Hnd as [Hm Hnd].
  rewrite map_cons, !count_unread_cons.
  destruct Hin as [<- | Hin].
  - rewrite map_mark_if_no_match.
    + unfold mark_if. rewrite Hid, Z.eqb_refl, Hr. reflexivity.
    + apply Forall_forall. intros k Hk Hk'. apply Hm.
      rewrite Hid, <- Hk'. apply list_elem_of_fmap_2. exact Hk.
  - assert (Hne : id m <> i).
    { intros Hmi. apply Hm. rewrite Hmi, <- Hid. apply list_elem_of_fmap_2.
      apply list_elem_of_In. exact Hin. }
    unfold mark_if at 1. apply Z.eqb_neq in Hne. rewrite Hne.
    rewrite <- (IH Hnd Hin). destruct (is_read m); reflexivity.
Qed.

(** A pushed notification that arrives unread keeps the counter in
    agreement with the list. *)
Theorem push_keeps_consistent (d : NotificationData) (s : Store) :
  consistent s -> is_read d = false -> consistent (handleNotification d s).
Proof.
  unfold consistent, handleNotification. simpl. intros Hc Hr.
  rewrite count_unread_cons, Hr, Hc. lia.
Qed.

Lemma push_keeps_consistent_witness :
  consistent (mkStore [notif_ex 1 true] 0 true) /\ is_read (notif_ex 2 false) = false /\
  consistent (handleNotification (notif_ex 2 false) (mkStore [notif_ex 1 true] 0 true)).
Proof.
  assert (Hc : consistent (mkStore [notif_ex 1 true] 0 true)) by reflexivity.
  split; [exact Hc|]. split; [reflexivity|].
  exact (push_keeps_consistent (notif_ex 2 false) _ Hc eq_refl).
Defined.

(** A successful [markAsRead(i)] keeps the counter in agreement with the
    list when the ids are distinct and the entry with id [i] is unread. *)
Theorem markAsRead_keeps_consistent (i : Z) (n : NotificationData) (s : Store) :
  consistent s -> NoDup (map id (notifications s)) -> In n (notifications s) ->
  id n = i -> is_read n = false ->
  consistent (markAsRead_settle i true s).
Proof.
  unfold consistent, markAsRead_settle. simpl. intros Hc Hnd Hin Hid Hr.
  rewrite Hc, <- (count_unread_mark_one i n (notifications s) Hnd Hin Hid Hr). lia.
Qed.

Lemma markAsRead_keeps_consistent_witness :
  consistent (markAsRead_settle 1 true (mkStore [notif_ex 1 false; notif_ex 2 false] 2 true)).
Proof.
  apply (markAsRead_keeps_consistent 1 (notif_ex 1 false)).
  - reflexivity.
  - apply (bool_decide_unpack _). vm_compute. reflexivity.
  - left. reflexivity.
  - reflexivity.
  - reflexivity.
Defined.

(** A successful [markAllAsRead()] leaves no unread entry and a zero
    counter, whatever the state before. *)
Theorem markAllAsRead_makes_consistent (s : Store) :
  count_unread (notifications (markAllAsRead_settle true s)) = 0%nat /\
  unreadCount (markAllAsRead_settle true s) = 0 /\
  consistent (markAllAsRead_settle true s).
Proof.
  unfold consistent, markAllAsRead_settle. simpl.
  rewrite count_unread_map_with_read. repeat split.
Qed.

(** Pushed notifications compose: [k] pushes put them in front, newest
    first, and add [k] to the counter; nothing else changes. *)
Theorem pushes_compose (ds : list NotificationData) (s : Store) :
  run (map EvNotification ds) s =
  mkStore (rev ds ++ notifications s) (unreadCount s + Z.of_nat (length ds)) (isConnected s).
Proof.
  revert s. induction ds as [|d ds IH]; intros s; simpl.
  - destruct s; simpl. f_equal. lia.
  - rewrite IH. simpl. rewrite <- app_assoc. simpl. f_equal. lia.
Qed.


End StoreMore.
